(** * Benchmark graph of [react_agent/graph.py]

    A shallow embedding of the three benchmark nodes ([entry_node],
    [sequential_node], [parallel_node]), of the router [should_continue] and
    of the topology built by [builder], together with a super-step engine
    that drives them, and the properties of the resulting runs. *)

From Stdlib Require Import ZArith List String Ascii Bool Lia.
From Stdlib Require Import Permutation Sorted DecimalString.
Import ListNotations.

Open Scope string_scope.
Open Scope Z_scope.

(** ** Python values that reach the graph *)

(** [class BenchmarkMode(Enum)] and the value of each member. *)
Inductive BenchmarkMode : Type :=
| SINGLE_NODE
| SEQUENTIAL_NODES
| PARALLEL_NODES.

Definition BenchmarkMode_value (m : BenchmarkMode) : string :=
  match m with
  | SINGLE_NODE => "single"
  | SEQUENTIAL_NODES => "sequential"
  | PARALLEL_NODES => "parallel"
  end.

Definition BenchmarkMode_eqb (a b : BenchmarkMode) : bool :=
  match a, b with
  | SINGLE_NODE, SINGLE_NODE
  | SEQUENTIAL_NODES, SEQUENTIAL_NODES
  | PARALLEL_NODES, PARALLEL_NODES => true
  | _, _ => false
  end.

(** What the caller may put in the [mode] field: the dataclass does not
    validate it, so it is any Python value; the ones modelled are [None],
    booleans, integers, strings and members of the enumeration. *)
Inductive pyval : Type :=
| PyNone
| PyBool (b : bool)
| PyInt (z : Z)
| PyStr (s : string)
| PyEnum (m : BenchmarkMode).

(** Python truth value, as tested by [... if state.mode else ...].  A plain
    [Enum] member is always true. *)
Definition truthy (v : pyval) : bool :=
  match v with
  | PyNone => false
  | PyBool b => b
  | PyInt z => negb (z =? 0)
  | PyStr s => negb (s =? "")%string
  | PyEnum _ => true
  end.

(** The exceptions the module can raise. *)
Inductive pyexc : Type :=
| ValueError (v : pyval)           (* [v] is not a valid BenchmarkMode *)
| AttributeError (attr : string)   (* 'dict' object has no attribute [attr] *)
| TypeError_not_subscriptable      (* 'State' object is not subscriptable *)
| KeyError (key : string).

(** [BenchmarkMode(v)]: a member is returned as it is, a member's value is
    looked up, anything else raises [ValueError].  This is the failure the
    specification calls InvalidModeError. *)
Definition BenchmarkMode_call (v : pyval) : pyexc + BenchmarkMode :=
  match v with
  | PyEnum m => inr m
  | PyStr s =>
      if (s =? "single")%string then inr SINGLE_NODE
      else if (s =? "sequential")%string then inr SEQUENTIAL_NODES
      else if (s =? "parallel")%string then inr PARALLEL_NODES
      else inl (ValueError v)
  | _ => inl (ValueError v)
  end.

(** [str(n)] for an integer, as an f-string formats it. *)
Definition str (n : Z) : string := NilZero.string_of_int (Z.to_int n).

(** [s * n] on strings: [n] copies of [s], none when [n <= 0]. *)
Fixpoint str_repeat (s : string) (n : nat) : string :=
  match n with
  | O => ""
  | S n' => s ++ str_repeat s n'
  end.

Definition str_mul (s : string) (n : Z) : string := str_repeat s (Z.to_nat n).

(** [range(a, b)]. *)
Definition range (a b : Z) : list Z :=
  map (fun i => a + Z.of_nat i) (seq 0 (Z.to_nat (b - a))).

(** ** Data model *)

(** [class Message(TypedDict)]. *)
Record Message : Type := mkMessage { id : Z; content : string }.

(** [@dataclass class State]. *)
Record State : Type := mkState {
  counter : Z;
  delay : Z;
  data_size : Z;
  expand : Z;
  mode : pyval;
  messages : list Message
}.

(** The keyword arguments of [State(...)]: a field the caller omits takes the
    default of the dataclass. *)
Record StateInput : Type := mkStateInput {
  in_counter : option Z;
  in_delay : option Z;
  in_data_size : option Z;
  in_expand : option Z;
  in_mode : option pyval;
  in_messages : option (list Message)
}.

Definition or_default {A : Type} (o : option A) (d : A) : A :=
  match o with Some a => a | None => d end.

Definition State_init (i : StateInput) : State :=
  {| counter := or_default (in_counter i) 0;
     delay := or_default (in_delay i) 0;
     data_size := or_default (in_data_size i) 1000;
     expand := or_default (in_expand i) 50;
     mode := or_default (in_mode i) (PyEnum SINGLE_NODE);
     messages := or_default (in_messages i) [] |}.

Definition no_input : StateInput :=
  {| in_counter := None; in_delay := None; in_data_size := None;
     in_expand := None; in_mode := None; in_messages := None |}.

(** The partial update a node returns: a dict with some of the keys
    ["counter"], ["mode"], ["messages"]. *)
Record Update : Type := mkUpdate {
  upd_counter : option Z;
  upd_mode : option BenchmarkMode;
  upd_messages : option (list Message)
}.

(** The object bound to the parameter [state] of a node: the [State] built
    from the channels, or the dict carried by a [Send]. *)
Inductive pyobj : Type :=
| ObjState (s : State)
| ObjDict (d : list (string * Z)).

(** ** Effects of a node: suspension and exceptions *)

Inductive event : Type :=
| Sleep (d : Z).     (* [await asyncio.sleep(d)] *)

Definition M (A : Type) : Type := (list event * (pyexc + A))%type.

Definition ret {A : Type} (a : A) : M A := ([], inr a).
Definition raise {A : Type} (e : pyexc) : M A := ([], inl e).
Definition sleep (d : Z) : M unit := ([Sleep d], inr tt).

Definition bind {A B : Type} (c : M A) (k : A -> M B) : M B :=
  match c with
  | (tr, inl e) => (tr, inl e)
  | (tr, inr a) => let (tr', r) := k a in ((tr ++ tr')%list, r)
  end.

Definition lift {A : Type} (r : pyexc + A) : M A := ([], r).

Notation "x <- c ;; k" := (bind c (fun x => k))
  (at level 61, c at next level, right associativity).
Notation "c ;;; k" := (bind c (fun _ => k))
  (at level 61, right associativity).

(** [state.attr]: defined on a [State], an [AttributeError] on a dict. *)
Definition getattr {A : Type} (name : string) (proj : State -> A)
    (o : pyobj) : M A :=
  match o with
  | ObjState s => ret (proj s)
  | ObjDict _ => raise (AttributeError name)
  end.

Fixpoint dict_get (d : list (string * Z)) (k : string) : option Z :=
  match d with
  | [] => None
  | (k', v) :: d' => if (k' =? k)%string then Some v else dict_get d' k
  end.

(** [state[key]]: a lookup on a dict; a dataclass has no [__getitem__]. *)
Definition getitem (o : pyobj) (k : string) : M Z :=
  match o with
  | ObjState _ => raise TypeError_not_subscriptable
  | ObjDict d =>
      match dict_get d k with
      | Some v => ret v
      | None => raise (KeyError k)
      end
  end.

(** [state.counter += 1] writes the attribute of the object the node holds. *)
Definition set_counter (o : pyobj) (c : Z) : pyobj :=
  match o with
  | ObjState s =>
      ObjState {| counter := c; delay := delay s; data_size := data_size s;
                  expand := expand s; mode := mode s; messages := messages s |}
  | ObjDict d => ObjDict d
  end.

(** ** The nodes *)

Definition create_large_data (state : pyobj) : M string :=
  n <- getattr "data_size" data_size state ;;
  ret (str_mul "a" n).

Definition entry_message : Message :=
  {| id := 0; content := "Hello from entry node!" |}.

Definition entry_node (state : pyobj) : M Update :=
  m <- getattr "mode" mode state ;;
  md <- (if truthy m
         then (m' <- getattr "mode" mode state ;; lift (BenchmarkMode_call m'))
         else ret SINGLE_NODE) ;;
  ret {| upd_counter := Some 0;
         upd_mode := Some md;
         upd_messages := Some [entry_message] |}.

Definition sequential_node (state : pyobj) : M Update :=
  c <- getattr "counter" counter state ;;
  let state := set_counter state (c + 1) in
  d <- getattr "delay" delay state ;;
  sleep d ;;;
  c1 <- getattr "counter" counter state ;;
  c2 <- getattr "counter" counter state ;;
  c3 <- getattr "counter" counter state ;;
  data <- create_large_data state ;;
  ret {| upd_counter := Some c1;
         upd_mode := None;
         upd_messages :=
           Some [ {| id := c2;
                     content := "Hello from sequential node " ++ str c3
                                ++ "! Data: " ++ data |} ] |}.

Definition parallel_node (state : pyobj) : M Update :=
  d <- getattr "delay" delay state ;;
  sleep d ;;;
  p1 <- getitem state "parallel_id" ;;
  p2 <- getitem state "parallel_id" ;;
  data <- create_large_data state ;;
  ret {| upd_counter := None;
         upd_mode := None;
         upd_messages :=
           Some [ {| id := p1;
                     content := "Hello from parallel node " ++ str p2
                                ++ "! Data: " ++ data |} ] |}.

(** ** The router and the topology *)

Inductive node_id : Type :=
| Entry        (* "entry_node" *)
| Sequential   (* "sequential_node" *)
| Parallel.    (* "parallel_node" *)

(** [Send(node, arg)]. *)
Record Send : Type := mkSend { send_node : node_id; send_arg : list (string * Z) }.

(** What [should_continue] returns: ["__end__"], the name of a node, or a
    list of [Send]. *)
Inductive RouterDecision : Type :=
| Terminal
| NextNode (n : node_id)
| BranchSet (sends : list Send).

(** The [match] has no default case: on a mode that is no member of the
    enumeration the function falls through and returns [None]. *)
Definition should_continue (state : State) : option RouterDecision :=
  match mode state with
  | PyEnum SINGLE_NODE => Some Terminal
  | PyEnum SEQUENTIAL_NODES =>
      if counter state <? expand state
      then Some (NextNode Sequential)
      else Some Terminal
  | PyEnum PARALLEL_NODES =>
      Some (BranchSet
              (map (fun k => {| send_node := Parallel;
                                send_arg := [("parallel_id", k)] |})
                   (range 1 (expand state + 1))))
  | _ => None
  end.

(** An outgoing edge of a node: [add_conditional_edges(node, router)] or
    [add_edge(node, "__end__")]. *)
Inductive edge : Type :=
| ConditionalEdge (router : State -> option RouterDecision)
| EdgeToEnd.

(** The value [compile] produces: the handlers, the node [__start__] leads
    to, and the outgoing edge of each node. *)
Record Graph : Type := mkGraph {
  g_node : node_id -> pyobj -> M Update;
  g_start : node_id;
  g_edge : node_id -> edge
}.

Definition graph : Graph :=
  {| g_node := fun n =>
       match n with
       | Entry => entry_node
       | Sequential => sequential_node
       | Parallel => parallel_node
       end;
     g_start := Entry;
     g_edge := fun n =>
       match n with
       | Entry => ConditionalEdge should_continue
       | Sequential => ConditionalEdge should_continue
       | Parallel => EdgeToEnd
       end |}.

(** ** The engine

    [StateGraph], [Send] and [compile] are imported from the langgraph
    package: the scheduler that runs [graph] is not part of the module.  The
    definitions of this part follow the engine the specification describes;
    the only thing taken from the module is the reducer [add] that the
    annotation of [messages] declares. *)

Section Sort.
Context {A : Type}.
Variable key : A -> nat.

(** Modelled from the spec: the scheduler is missing from the sources;
    ordering by a key is how the completion order and the merge order of
    §4.1 and §5 are obtained. *)
Fixpoint insert_by (x : A) (l : list A) : list A :=
  match l with
  | [] => [x]
  | y :: l' =>
      if (key x <=? key y)%nat then x :: l else y :: insert_by x l'
  end.

(** Modelled from the spec: stable insertion sort on [key], used for the
    completion order and for the merge order (§4.1, §5). *)
Fixpoint sort_by (l : list A) : list A :=
  match l with
  | [] => []
  | x :: l' => insert_by x (sort_by l')
  end.
End Sort.

(** Modelled from the spec: an execution unit of the frontier, a node with
    the payload overlay of the directive that spawned it, if any (§3, §4.4;
    the scheduler itself is missing from the sources). *)
Record exec_unit : Type := mkUnit {
  u_node : node_id;
  u_overlay : option (list (string * Z))
}.

(** Modelled from the spec: the error taxonomy of §7.  A handler failure
    carries the node and the overlay; [RouterError] is a router that returned
    no decision. *)
Inductive run_error : Type :=
| NodeExecutionError (n : node_id) (overlay : option (list (string * Z)))
    (e : pyexc)
| MergeConflictError (field : string)
| RouterError (n : node_id).

(** Modelled from the spec: the outcome of a run, the final state or the
    failure surfaced to the caller (§6, §7); [OutOfFuel] is the bound of the
    model on the number of super-steps. *)
Inductive run_result : Type :=
| Finished (s : State)
| Failed (e : run_error)
| OutOfFuel.

(** Modelled from the spec: what a unit hands over at the barrier, with its
    index in the frontier (§4.4). *)
Record unit_result : Type := mkResult {
  r_index : nat;
  r_unit : exec_unit;
  r_outcome : pyexc + Update
}.

(** Modelled from the spec: the [overwrite] policy of §4.1 on the values
    written to one field in one super-step; equal values are accepted, the
    last one wins, different values are a conflict. *)
Definition overwrite {A : Type} (eqb : A -> A -> bool) (field : string)
    (ws : list A) : run_error + option A :=
  match ws with
  | [] => inr None
  | w :: ws' =>
      if forallb (eqb w) ws' then inr (Some (last ws' w))
      else inl (MergeConflictError field)
  end.

(** Modelled from the spec: the values the updates of a super-step write to
    one field, in the order of the updates (§4.1). *)
Definition writes {A : Type} (f : Update -> option A) (ups : list Update)
    : list A :=
  flat_map (fun u => match f u with Some a => [a] | None => [] end) ups.

(** Modelled from the spec: the [append] policy of §4.1; the concatenation
    is the reducer [add] that the annotation of [messages] declares, applied
    to the contributions in the order given. *)
Definition append (cur : list Message) (ups : list Update) : list Message :=
  (cur ++ flat_map (fun u => or_default (upd_messages u) []) ups)%list.

(** Modelled from the spec: [apply(snapshot, partialUpdates[])] of §4.1;
    [counter] and [mode] are overwrite fields, [messages] is the append
    field, the other fields are never written. *)
Definition apply (snap : State) (ups : list Update) : run_error + State :=
  match overwrite Z.eqb "counter" (writes upd_counter ups) with
  | inl e => inl e
  | inr c =>
      match overwrite BenchmarkMode_eqb "mode" (writes upd_mode ups) with
      | inl e => inl e
      | inr m =>
          inr {| counter := or_default c (counter snap);
                 delay := delay snap;
                 data_size := data_size snap;
                 expand := expand snap;
                 mode := match m with
                         | Some m' => PyEnum m'
                         | None => mode snap
                         end;
                 messages := append (messages snap) ups |}
      end
  end.

(** Modelled from the spec: the units a routing decision puts in the next
    frontier; a [BranchSet] is exploded into one unit per directive (§4.4). *)
Definition directives (d : RouterDecision) : list exec_unit :=
  match d with
  | Terminal => []
  | NextNode n => [ {| u_node := n; u_overlay := None |} ]
  | BranchSet sends =>
      map (fun s => {| u_node := send_node s;
                       u_overlay := Some (send_arg s) |}) sends
  end.

(** Modelled from the spec: the first failure in the order of the results,
    with the node and the overlay of the unit that failed (§4.4, §7). *)
Definition first_failure (rs : list unit_result) : option run_error :=
  match
    find (fun r => match r_outcome r with inl _ => true | inr _ => false end) rs
  with
  | Some {| r_unit := u; r_outcome := inl e |} =>
      Some (NodeExecutionError (u_node u) (u_overlay u) e)
  | _ => None
  end.

(** Modelled from the spec: the updates of the units that succeeded, in the
    order of the results (§4.4). *)
Definition successes (rs : list unit_result) : list Update :=
  flat_map (fun r => match r_outcome r with inr u => [u] | inl _ => [] end) rs.

Section Engine.
Variable G : Graph.

(** Modelled from the spec: the completion latency of each unit of each
    super-step, the part of a run the caller does not control (§5). *)
Variable latency : nat -> nat -> nat.

(** Modelled from the spec: a unit carries the overlay of its directive
    (§2, §3).  The handler of a unit without overlay receives the
    snapshot; the handler of a unit spawned by a [Send] receives the
    argument of that [Send] as its [state], which is where
    [parallel_node] reads [state["parallel_id"]]. *)
Definition unit_input (snap : State) (u : exec_unit) : pyobj :=
  match u_overlay u with
  | None => ObjState snap
  | Some d => ObjDict d
  end.

(** Modelled from the spec: a unit runs the handler of its node on its
    input and hands over the outcome (§4.2, §4.4). *)
Definition execute (snap : State) (iu : nat * exec_unit) : unit_result :=
  {| r_index := fst iu;
     r_unit := snd iu;
     r_outcome := snd (g_node G (u_node (snd iu)) (unit_input snap (snd iu))) |}.

(** Modelled from the spec: the units of a frontier with their unit
    index (§4.1). *)
Definition index_units (frontier : list exec_unit)
    : list (nat * exec_unit) :=
  combine (seq 0 (List.length frontier)) frontier.

(** Modelled from the spec: the units of a super-step run on the same
    snapshot and finish in the order of their latencies (§4.4, §5). *)
Definition completed (step : nat) (snap : State)
    (frontier : list exec_unit) : list unit_result :=
  map (execute snap)
      (sort_by (fun iu => latency step (fst iu)) (index_units frontier)).

(** Modelled from the spec: the barrier, where the results are put back
    in ascending unit index whatever the completion order (§4.1, §4.4). *)
Definition barrier (step : nat) (snap : State)
    (frontier : list exec_unit) : list unit_result :=
  sort_by r_index (completed step snap frontier).

(** Modelled from the spec: each unit that carries a router has it invoked
    on the merged snapshot and the directives are gathered, in unit order,
    into the next frontier (§4.4). *)
Fixpoint next_frontier (merged : State) (us : list exec_unit)
    : run_error + list exec_unit :=
  match us with
  | [] => inr []
  | u :: us' =>
      match g_edge G (u_node u) with
      | EdgeToEnd => next_frontier merged us'
      | ConditionalEdge router =>
          match router merged with
          | None => inl (RouterError (u_node u))
          | Some d =>
              match next_frontier merged us' with
              | inl e => inl e
              | inr fr => inr (directives d ++ fr)%list
              end
          end
      end
  end.

(** Modelled from the spec: one super-step of §4.4: execute, wait for every
    unit, raise the first failure by unit index if there is one, otherwise
    merge and route.  The snapshot merged from the successful siblings of a
    failed unit is not exposed, so it is not computed. *)
Definition superstep (step : nat) (snap : State)
    (frontier : list exec_unit) : run_error + (State * list exec_unit) :=
  let rs := barrier step snap frontier in
  match first_failure rs with
  | Some e => inl e
  | None =>
      match apply snap (successes rs) with
      | inl e => inl e
      | inr merged =>
          match next_frontier merged (map r_unit rs) with
          | inl e => inl e
          | inr fr => inr (merged, fr)
          end
      end
  end.

(** Modelled from the spec: super-steps are repeated until the next
    frontier is empty or a super-step fails; [fuel] bounds their number. *)
Fixpoint supersteps (fuel : nat) (step : nat) (snap : State)
    (frontier : list exec_unit) : run_result :=
  match frontier with
  | [] => Finished snap
  | _ :: _ =>
      match fuel with
      | O => OutOfFuel
      | S fuel' =>
          match superstep step snap frontier with
          | inl e => Failed e
          | inr (snap', frontier') =>
              supersteps fuel' (S step) snap' frontier'
          end
      end
  end.

(** Modelled from the spec: a run builds the state from the caller's
    inputs and starts with one unit at the start node, without overlay. *)
Definition run (fuel : nat) (input : StateInput) : run_result :=
  supersteps fuel 0 (State_init input)
    [ {| u_node := g_start G; u_overlay := None |} ].
End Engine.

(** The inputs of a run invocation: [mode], [delay], [data_size], [expand];
    [counter] and [messages] are left to their defaults. *)
Definition run_input (m : pyval) (d ds n : Z) : StateInput :=
  {| in_counter := None; in_delay := Some d; in_data_size := Some ds;
     in_expand := Some n; in_mode := Some m; in_messages := None |}.

(** What the nodes write, as functions of the state they read. *)
Definition sequential_message (ds c : Z) : Message :=
  {| id := c;
     content := "Hello from sequential node " ++ str c ++ "! Data: "
                ++ str_mul "a" ds |}.

Definition resolve_mode (v : pyval) : pyexc + BenchmarkMode :=
  if truthy v then BenchmarkMode_call v else inr SINGLE_NODE.

Definition after_entry (s : State) (m : BenchmarkMode) : State :=
  {| counter := 0; delay := delay s; data_size := data_size s;
     expand := expand s; mode := PyEnum m;
     messages := (messages s ++ [entry_message])%list |}.

Definition after_sequential (s : State) : State :=
  {| counter := counter s + 1; delay := delay s; data_size := data_size s;
     expand := expand s; mode := mode s;
     messages :=
       (messages s
        ++ [sequential_message (data_size s) (counter s + 1)])%list |}.

Definition frontier_of (s : State) : list exec_unit :=
  match should_continue s with
  | Some d => directives d
  | None => []
  end.

Definition entry_unit : exec_unit := {| u_node := Entry; u_overlay := None |}.
Definition sequential_unit : exec_unit :=
  {| u_node := Sequential; u_overlay := None |}.
Definition parallel_unit (k : Z) : exec_unit :=
  {| u_node := Parallel; u_overlay := Some [("parallel_id", k)] |}.

(** Strictly ascending keys. *)
Definition ascending {A : Type} (key : A -> nat) (l : list A) : Prop :=
  StronglySorted (fun a b => (key a < key b)%nat) l.

(** The message log a finished run returns. *)
Definition log (r : run_result) : option (list Message) :=
  match r with
  | Finished s => Some (messages s)
  | _ => None
  end.

(** The raw modes the interface of a run names. *)
Definition recognized (v : pyval) : Prop :=
  v = PyStr "single" \/ v = PyStr "sequential" \/ v = PyStr "parallel".

(** The raw modes [entry_node] goes through with: a false value, a member of
    the enumeration, or the value of a member. *)
Definition accepted (v : pyval) : Prop :=
  truthy v = false \/ (exists m, v = PyEnum m) \/ recognized v.

Definition resolves_to (v : pyval) (m : BenchmarkMode) : Prop :=
  (truthy v = false /\ m = SINGLE_NODE)
  \/ v = PyEnum m
  \/ v = PyStr (BenchmarkMode_value m).

(** Two completion latencies: all units at once, and last unit first. *)
Definition lat_same : nat -> nat -> nat := fun _ _ => O.
Definition lat_reversed : nat -> nat -> nat := fun _ i => (1000 - i)%nat.

(** Modelled from the spec: the super-steps a run completes, each with the
    frontier it executed and the snapshot it merged (§4.4); the list stops
    where the run stops, at an empty frontier, a failure or the bound. *)
Fixpoint history (G : Graph) (latency : nat -> nat -> nat) (fuel step : nat)
    (snap : State) (frontier : list exec_unit)
    : list (list exec_unit * State) :=
  match frontier with
  | [] => []
  | _ :: _ =>
      match fuel with
      | O => []
      | S fuel' =>
          match superstep G latency step snap frontier with
          | inl _ => []
          | inr (snap', frontier') =>
              (frontier, snap')
              :: history G latency fuel' (S step) snap' frontier'
          end
      end
  end.


(** * Properties *)

Arguments str : simpl never.
Arguments str_mul : simpl never.
Arguments entry_node : simpl never.
Arguments sequential_node : simpl never.
Arguments parallel_node : simpl never.
Arguments should_continue : simpl never.

(** ** Sorting on a key *)

Section SortFacts.
Context {A : Type}.
Variable key : A -> nat.

Lemma insert_by_perm (x : A) (l : list A) :
  Permutation (insert_by key x l) (x :: l).
Proof.
  induction l as [|y l IH]; simpl.
  - apply Permutation_refl.
  - destruct (key x <=? key y)%nat.
    + apply Permutation_refl.
    + apply Permutation_trans with (y :: x :: l).
      * now apply perm_skip.
      * apply perm_swap.
Qed.

Lemma sort_by_perm (l : list A) : Permutation (sort_by key l) l.
Proof.
  induction l as [|x l IH]; simpl.
  - apply perm_nil.
  - eapply Permutation_trans; [apply insert_by_perm|].
    now apply perm_skip.
Qed.

Lemma insert_by_ascending (x : A) (l : list A) :
  ascending key l -> ~ In (key x) (map key l) ->
  ascending key (insert_by key x l).
Proof.
  unfold ascending.
  induction l as [|y l IH]; simpl; intros Hs Hn.
  - constructor; constructor.
  - apply StronglySorted_inv in Hs. destruct Hs as [Hl Hy].
    destruct (Nat.leb_spec (key x) (key y)) as [Hle|Hlt].
    + assert (Hxy : (key x < key y)%nat).
      { assert (key y <> key x) by (intros E; apply Hn; now left). lia. }
      constructor.
      * constructor; assumption.
      * constructor; [exact Hxy|].
        eapply Forall_impl; [|exact Hy]. simpl. intros b Hb. lia.
    + constructor.
      * apply IH; [exact Hl|]. intros Hin. apply Hn. now right.
      * eapply Permutation_Forall.
        -- apply Permutation_sym, insert_by_perm.
        -- constructor; assumption.
Qed.

Lemma sort_by_ascending (l : list A) :
  NoDup (map key l) -> ascending key (sort_by key l).
Proof.
  induction l as [|x l IH]; simpl; intros Hnd.
  - constructor.
  - inversion Hnd as [|k ks Hnotin Hnd']; subst.
    apply insert_by_ascending; [now apply IH|].
    intros Hin. apply Hnotin.
    eapply Permutation_in; [|exact Hin].
    apply Permutation_map, sort_by_perm.
Qed.

Lemma ascending_NoDup (l : list A) :
  ascending key l -> NoDup (map key l).
Proof.
  unfold ascending.
  induction l as [|x l IH]; simpl; intros Hs.
  - constructor.
  - apply StronglySorted_inv in Hs. destruct Hs as [Hl Hx].
    constructor; [|now apply IH].
    rewrite in_map_iff. intros [y [Hk Hy]].
    rewrite Forall_forall in Hx. specialize (Hx y Hy). lia.
Qed.

Lemma ascending_unique (l1 l2 : list A) :
  ascending key l1 -> ascending key l2 -> Permutation l1 l2 -> l1 = l2.
Proof.
  unfold ascending. revert l2.
  induction l1 as [|a l1 IH]; intros l2 H1 H2 HP.
  - now apply Permutation_nil in HP.
  - destruct l2 as [|b l2].
    + apply Permutation_sym, Permutation_nil in HP. discriminate.
    + apply StronglySorted_inv in H1. destruct H1 as [H1 Ha].
      apply StronglySorted_inv in H2. destruct H2 as [H2 Hb].
      rewrite Forall_forall in Ha, Hb.
      assert (Hab : a = b).
      { assert (Hina : In a (b :: l2))
          by (eapply Permutation_in; [exact HP|now left]).
        assert (Hinb : In b (a :: l1))
          by (eapply Permutation_in;
              [apply Permutation_sym; exact HP|now left]).
        destruct Hina as [E|Hina]; [now symmetry|].
        destruct Hinb as [E|Hinb]; [exact E|].
        specialize (Ha b Hinb). specialize (Hb a Hina). lia. }
      subst b. f_equal.
      apply IH; [exact H1|exact H2|].
      eapply Permutation_cons_inv; exact HP.
Qed.

(** Sorting any rearrangement of a list whose keys ascend gives the list
    back. *)
Lemma sort_by_of_perm (l l' : list A) :
  ascending key l -> Permutation l' l -> sort_by key l' = l.
Proof.
  intros Hasc HP.
  apply ascending_unique; [|exact Hasc|].
  - apply sort_by_ascending.
    eapply Permutation_NoDup.
    + apply Permutation_map, Permutation_sym, HP.
    + now apply ascending_NoDup.
  - eapply Permutation_trans; [apply sort_by_perm|exact HP].
Qed.
End SortFacts.

Lemma ascending_map {A B : Type} (key : B -> nat) (f : A -> B) (l : list A) :
  ascending (fun a => key (f a)) l -> ascending key (map f l).
Proof.
  unfold ascending.
  induction l as [|x l IH]; simpl; intros Hs.
  - constructor.
  - apply StronglySorted_inv in Hs. destruct Hs as [Hl Hx].
    constructor; [now apply IH|].
    rewrite Forall_map. exact Hx.
Qed.

Lemma combine_seq_ascending {A : Type} (l : list A) (k : nat) :
  ascending fst (combine (seq k (List.length l)) l).
Proof.
  unfold ascending. revert k.
  induction l as [|x l IH]; simpl; intros k.
  - constructor.
  - constructor; [apply IH|].
    rewrite Forall_forall. intros [i y] Hin. simpl.
    apply in_combine_l in Hin. apply in_seq in Hin. lia.
Qed.

(** ** Ranges *)

Lemma range_nil (a b : Z) : b <= a -> range a b = [].
Proof.
  intros H. unfold range.
  replace (Z.to_nat (b - a)) with O by lia. reflexivity.
Qed.

Lemma range_cons (a b : Z) : a < b -> range a b = a :: range (a + 1) b.
Proof.
  intros H. unfold range.
  replace (Z.to_nat (b - a)) with (S (Z.to_nat (b - (a + 1)))) by lia.
  simpl. f_equal; [lia|].
  rewrite <- seq_shift, map_map.
  apply map_ext. intros i. lia.
Qed.

Lemma range_length (a b : Z) : List.length (range a b) = Z.to_nat (b - a).
Proof. unfold range. now rewrite length_map, length_seq. Qed.

Lemma range_In (a b k : Z) : In k (range a b) <-> a <= k < b.
Proof.
  unfold range. rewrite in_map_iff. split.
  - intros [i [Hk Hi]]. apply in_seq in Hi. lia.
  - intros Hk. exists (Z.to_nat (k - a)). split; [lia|].
    apply in_seq. lia.
Qed.

Lemma range_NoDup (a b : Z) : NoDup (range a b).
Proof.
  unfold range. apply Finite.Injective_map_NoDup.
  - intros i j Hij. lia.
  - apply seq_NoDup.
Qed.

(** ** The barrier restores the unit order *)

Section EngineFacts.
Variable G : Graph.

Lemma barrier_eq (lat : nat -> nat -> nat) (step : nat) (snap : State)
    (fr : list exec_unit) :
  barrier G lat step snap fr = map (execute G snap) (index_units fr).
Proof.
  unfold barrier, completed.
  apply sort_by_of_perm.
  - apply ascending_map. simpl. apply combine_seq_ascending.
  - apply Permutation_map, sort_by_perm.
Qed.

Lemma superstep_latency (lat1 lat2 : nat -> nat -> nat) (k1 k2 : nat)
    (snap : State) (fr : list exec_unit) :
  superstep G lat1 k1 snap fr = superstep G lat2 k2 snap fr.
Proof. unfold superstep. now rewrite !barrier_eq. Qed.

Lemma supersteps_latency (lat1 lat2 : nat -> nat -> nat) (fuel : nat) :
  forall (k1 k2 : nat) (snap : State) (fr : list exec_unit),
    supersteps G lat1 fuel k1 snap fr = supersteps G lat2 fuel k2 snap fr.
Proof.
  induction fuel as [|fuel IH]; intros k1 k2 snap fr; simpl.
  - reflexivity.
  - destruct fr as [|u fr]; [reflexivity|].
    rewrite (superstep_latency lat1 lat2 k1 k2).
    destruct (superstep G lat2 k2 snap (u :: fr)) as [e|[snap' fr']].
    + reflexivity.
    + apply IH.
Qed.

Lemma supersteps_done (lat : nat -> nat -> nat) (fuel step : nat)
    (snap : State) :
  supersteps G lat fuel step snap [] = Finished snap.
Proof. destruct fuel; reflexivity. Qed.
End EngineFacts.

(** ** The nodes, evaluated *)

Lemma entry_node_eq (s : State) :
  entry_node (ObjState s) =
  ([], match resolve_mode (mode s) with
       | inl e => inl e
       | inr m => inr {| upd_counter := Some 0;
                         upd_mode := Some m;
                         upd_messages := Some [entry_message] |}
       end).
Proof.
  unfold entry_node, resolve_mode. simpl.
  destruct (truthy (mode s)); simpl;
    [destruct (BenchmarkMode_call (mode s))|]; reflexivity.
Qed.

Lemma sequential_node_eq (s : State) :
  sequential_node (ObjState s) =
  ([Sleep (delay s)],
   inr {| upd_counter := Some (counter s + 1);
          upd_mode := None;
          upd_messages :=
            Some [sequential_message (data_size s) (counter s + 1)] |}).
Proof. reflexivity. Qed.

Lemma parallel_node_dict (d : list (string * Z)) :
  parallel_node (ObjDict d) = ([], inl (AttributeError "delay")).
Proof. reflexivity. Qed.

Lemma parallel_node_state (s : State) :
  parallel_node (ObjState s) =
  ([Sleep (delay s)], inl TypeError_not_subscriptable).
Proof. reflexivity. Qed.

Lemma should_continue_enum (s : State) (m : BenchmarkMode) :
  mode s = PyEnum m -> exists d, should_continue s = Some d.
Proof.
  intros H. unfold should_continue. rewrite H.
  destruct m; [eexists; reflexivity| |eexists; reflexivity].
  destruct (counter s <? expand s); eexists; reflexivity.
Qed.

(** ** Single super-steps of [graph] *)

Lemma superstep_single_ok (G : Graph) (lat : nat -> nat -> nat) (step : nat)
    (snap : State) (u : exec_unit) (upd : Update) :
  snd (g_node G (u_node u) (unit_input snap u)) = inr upd ->
  superstep G lat step snap [u] =
  match apply snap [upd] with
  | inl e => inl e
  | inr merged =>
      match next_frontier G merged [u] with
      | inl e => inl e
      | inr fr => inr (merged, fr)
      end
  end.
Proof.
  intros H. unfold superstep. rewrite barrier_eq.
  unfold index_units, execute, first_failure, successes.
  cbn [List.length seq combine map find flat_map fst snd r_outcome r_unit app].
  rewrite H. reflexivity.
Qed.

Lemma superstep_first_fails (G : Graph) (lat : nat -> nat -> nat)
    (step : nat) (snap : State) (u : exec_unit) (us : list exec_unit)
    (e : pyexc) :
  snd (g_node G (u_node u) (unit_input snap u)) = inl e ->
  superstep G lat step snap (u :: us) =
  inl (NodeExecutionError (u_node u) (u_overlay u) e).
Proof.
  intros H. unfold superstep. rewrite barrier_eq.
  unfold index_units, execute, first_failure.
  cbn [List.length seq combine map find fst snd r_outcome r_unit].
  rewrite H. reflexivity.
Qed.

Lemma next_frontier_routed (s : State) (u : exec_unit) (m : BenchmarkMode) :
  mode s = PyEnum m ->
  u_node u <> Parallel ->
  next_frontier graph s [u] = inr (frontier_of s).
Proof.
  intros Hm Hu. unfold frontier_of.
  destruct (should_continue_enum s m Hm) as [d Hd].
  destruct u as [[| |] ov]; simpl in *; try congruence;
    rewrite Hd; now rewrite app_nil_r.
Qed.

Lemma superstep_entry (lat : nat -> nat -> nat) (step : nat) (s : State)
    (m : BenchmarkMode) :
  resolve_mode (mode s) = inr m ->
  superstep graph lat step s [entry_unit] =
  inr (after_entry s m, frontier_of (after_entry s m)).
Proof.
  intros H.
  rewrite (superstep_single_ok graph lat step s entry_unit
             {| upd_counter := Some 0; upd_mode := Some m;
                upd_messages := Some [entry_message] |}).
  - change (apply s _) with (@inr run_error State (after_entry s m)).
    cbv iota beta.
    rewrite (next_frontier_routed (after_entry s m) entry_unit m);
      [reflexivity|reflexivity|discriminate].
  - change (snd (entry_node (ObjState s)) = inr
              {| upd_counter := Some 0; upd_mode := Some m;
                 upd_messages := Some [entry_message] |}).
    now rewrite entry_node_eq, H.
Qed.

Lemma superstep_entry_fails (lat : nat -> nat -> nat) (step : nat)
    (s : State) (e : pyexc) :
  resolve_mode (mode s) = inl e ->
  superstep graph lat step s [entry_unit] =
  inl (NodeExecutionError Entry None e).
Proof.
  intros H.
  apply (superstep_first_fails graph lat step s entry_unit []).
  change (snd (entry_node (ObjState s)) = inl e).
  now rewrite entry_node_eq, H.
Qed.

Lemma superstep_sequential (lat : nat -> nat -> nat) (step : nat) (s : State)
    (m : BenchmarkMode) :
  mode s = PyEnum m ->
  superstep graph lat step s [sequential_unit] =
  inr (after_sequential s, frontier_of (after_sequential s)).
Proof.
  intros H.
  rewrite (superstep_single_ok graph lat step s sequential_unit
             {| upd_counter := Some (counter s + 1); upd_mode := None;
                upd_messages :=
                  Some [sequential_message (data_size s) (counter s + 1)] |})
    by reflexivity.
  change (apply s _) with (@inr run_error State (after_sequential s)).
  cbv iota beta.
  rewrite (next_frontier_routed (after_sequential s) sequential_unit m);
    [reflexivity|exact H|discriminate].
Qed.

Lemma superstep_parallel_fails (lat : nat -> nat -> nat) (step : nat)
    (s : State) (k : Z) (us : list exec_unit) :
  superstep graph lat step s (parallel_unit k :: us) =
  inl (NodeExecutionError Parallel (Some [("parallel_id", k)])
         (AttributeError "delay")).
Proof.
  now apply (superstep_first_fails graph lat step s (parallel_unit k) us).
Qed.

Lemma supersteps_step (G : Graph) (lat : nat -> nat -> nat) (fuel step : nat)
    (snap : State) (u : exec_unit) (us : list exec_unit) :
  supersteps G lat (S fuel) step snap (u :: us) =
  match superstep G lat step snap (u :: us) with
  | inl e => Failed e
  | inr (snap', frontier') => supersteps G lat fuel (S step) snap' frontier'
  end.
Proof. reflexivity. Qed.

(** ** Defaults *)

(** C10: a field the caller omits takes the default of the dataclass:
    [counter = 0], [delay = 0], [data_size = 1000], [expand = 50],
    [mode = SINGLE_NODE] and an empty [messages] list. *)
Theorem State_defaults :
  State_init no_input =
  {| counter := 0; delay := 0; data_size := 1000; expand := 50;
     mode := PyEnum SINGLE_NODE; messages := [] |}.
Proof. reflexivity. Qed.

(** ** The payload *)

Lemma str_repeat_a_length (n : nat) : String.length (str_repeat "a" n) = n.
Proof. induction n as [|n IH]; simpl; [reflexivity|now rewrite IH]. Qed.

Lemma str_repeat_a_get (n i : nat) (c : ascii) :
  String.get i (str_repeat "a" n) = Some c -> c = "a"%char.
Proof.
  revert i. induction n as [|n IH]; simpl; intros i H.
  - destruct i; discriminate.
  - destruct i as [|i]; [now inversion H|now apply (IH i)].
Qed.

(** C8: on every state with [data_size >= 0] the payload builder returns a
    string of exactly [data_size] characters, all of them the filler ["a"],
    and the message of the sequential node embeds it after its text; for
    [data_size = 0] the payload is empty and for [data_size = 5] it is
    ["aaaaa"]. *)
Theorem create_large_data_payload (s : State) (H : 0 <= data_size s) :
  exists p : string,
    create_large_data (ObjState s) = ([], inr p)
    /\ Z.of_nat (String.length p) = data_size s
    /\ (forall i c, String.get i p = Some c -> c = "a"%char)
    /\ snd (sequential_node (ObjState s)) =
       inr {| upd_counter := Some (counter s + 1);
              upd_mode := None;
              upd_messages :=
                Some [ {| id := counter s + 1;
                          content := "Hello from sequential node "
                                     ++ str (counter s + 1)
                                     ++ "! Data: " ++ p |} ] |}
    /\ (data_size s = 0 -> p = "")
    /\ (data_size s = 5 -> p = "aaaaa").
Proof.
  exists (str_mul "a" (data_size s)).
  split; [reflexivity|]. unfold str_mul.
  split; [rewrite str_repeat_a_length; lia|].
  split; [intros i c; apply str_repeat_a_get|].
  split; [reflexivity|].
  split; intros E; rewrite E; reflexivity.
Qed.

Lemma create_large_data_payload_witness :
  0 <= data_size (State_init (run_input (PyStr "sequential") 0 5 3))
  /\ exists p : string,
       create_large_data
         (ObjState (State_init (run_input (PyStr "sequential") 0 5 3))) =
       ([], inr p)
       /\ p = "aaaaa".
Proof.
  split; [simpl; lia|].
  destruct (create_large_data_payload
              (State_init (run_input (PyStr "sequential") 0 5 3)))
    as [p [Hp [_ [_ [_ [_ H5]]]]]]; [simpl; lia|].
  exists p. split; [exact Hp|]. apply H5. reflexivity.
Defined.

(** ** The entry node *)

Lemma recognized_resolve (v : pyval) :
  recognized v ->
  exists m, v = PyStr (BenchmarkMode_value m) /\ resolve_mode v = inr m.
Proof.
  intros [E|[E|E]]; subst v.
  - exists SINGLE_NODE. split; reflexivity.
  - exists SEQUENTIAL_NODES. split; reflexivity.
  - exists PARALLEL_NODES. split; reflexivity.
Qed.

Lemma resolve_mode_cases (v : pyval) :
  (accepted v /\ exists m, resolve_mode v = inr m /\ resolves_to v m)
  \/ (~ accepted v /\ resolve_mode v = inl (ValueError v)).
Proof.
  destruct (truthy v) eqn:Ht.
  - destruct v as [|b|z|s|m]; simpl in Ht; try discriminate.
    + right. split; [|unfold resolve_mode; simpl; now rewrite Ht].
      intros [H|[[m H]|[H|[H|H]]]]; simpl in H; congruence.
    + right. split; [|unfold resolve_mode; simpl; now rewrite Ht].
      intros [H|[[m H]|[H|[H|H]]]]; simpl in H; congruence.
    + unfold resolve_mode. simpl. rewrite Ht.
      destruct (String.eqb_spec s "single") as [E1|N1].
      { left. subst s. split; [right; right; left; reflexivity|].
        exists SINGLE_NODE. split; [reflexivity|right; right; reflexivity]. }
      destruct (String.eqb_spec s "sequential") as [E2|N2].
      { left. subst s. split; [right; right; right; left; reflexivity|].
        exists SEQUENTIAL_NODES.
        split; [reflexivity|right; right; reflexivity]. }
      destruct (String.eqb_spec s "parallel") as [E3|N3].
      { left. subst s. split; [right; right; right; right; reflexivity|].
        exists PARALLEL_NODES.
        split; [reflexivity|right; right; reflexivity]. }
      right. split; [|reflexivity].
      intros [H|[[m H]|[H|[H|H]]]]; simpl in H; congruence.
    + left. split; [right; left; now exists m|].
      exists m. split; [reflexivity|right; left; reflexivity].
  - left. split; [now left|].
    exists SINGLE_NODE. unfold resolve_mode. rewrite Ht.
    split; [reflexivity|left; now split].
Qed.

(** C4, as the code has it: the entry node fails, with the [ValueError] of
    the enumeration, exactly when the raw mode is a true value that is
    neither a member of [BenchmarkMode] nor the value of one; a false raw
    mode (the empty string, [None], [0], [False]) resolves to [SINGLE_NODE].
    On every accepted raw mode, and so on each of ["single"], ["sequential"]
    and ["parallel"], the node succeeds, resets [counter] to 0, resolves the
    mode and emits the one message with id 0. *)
Theorem entry_node_mode (s : State) :
  (forall tr e, entry_node (ObjState s) = (tr, inl e) ->
                e = ValueError (mode s) /\ ~ accepted (mode s))
  /\ (~ accepted (mode s) ->
      entry_node (ObjState s) = ([], inl (ValueError (mode s))))
  /\ (accepted (mode s) ->
      exists m, resolves_to (mode s) m
                /\ entry_node (ObjState s) =
                   ([], inr {| upd_counter := Some 0;
                               upd_mode := Some m;
                               upd_messages := Some [entry_message] |}))
  /\ (recognized (mode s) ->
      exists m, mode s = PyStr (BenchmarkMode_value m)
                /\ entry_node (ObjState s) =
                   ([], inr {| upd_counter := Some 0;
                               upd_mode := Some m;
                               upd_messages := Some [entry_message] |})).
Proof.
  rewrite entry_node_eq.
  destruct (resolve_mode_cases (mode s)) as [[Ha [m [Hr Hm]]]|[Hn Hr]].
  - rewrite Hr. repeat split.
    + inversion H.
    + inversion H.
    + intros Hn. contradiction.
    + intros _. exists m. split; [exact Hm|reflexivity].
    + intros Hrec. destruct (recognized_resolve _ Hrec) as [m' [Hv Hr']].
      exists m'. split; [exact Hv|]. congruence.
  - rewrite Hr. repeat split.
    + inversion H. reflexivity.
    + exact Hn.
    + intros Ha. contradiction.
    + intros Hrec. exfalso. apply Hn. right; right; exact Hrec.
Qed.

Lemma entry_node_mode_witness :
  recognized (mode (State_init (run_input (PyStr "parallel") 0 5 3)))
  /\ exists m,
       mode (State_init (run_input (PyStr "parallel") 0 5 3)) =
       PyStr (BenchmarkMode_value m)
       /\ entry_node (ObjState (State_init (run_input (PyStr "parallel") 0 5 3))) =
          ([], inr {| upd_counter := Some 0;
                      upd_mode := Some m;
                      upd_messages := Some [entry_message] |}).
Proof.
  assert (Hrec : recognized
                   (mode (State_init (run_input (PyStr "parallel") 0 5 3))))
    by (right; right; reflexivity).
  split; [exact Hrec|].
  exact (proj2 (proj2 (proj2
           (entry_node_mode (State_init (run_input (PyStr "parallel") 0 5 3)))))
           Hrec).
Defined.

(** C4, as the claim words it, fails: the empty string is none of
    ["single"], ["sequential"], ["parallel"], and the entry node succeeds on
    it. *)
Lemma entry_node_empty_mode_succeeds :
  ~ recognized (mode (State_init (run_input (PyStr "") 0 5 3)))
  /\ entry_node (ObjState (State_init (run_input (PyStr "") 0 5 3))) =
     ([], inr {| upd_counter := Some 0;
                 upd_mode := Some SINGLE_NODE;
                 upd_messages := Some [entry_message] |}).
Proof.
  split; [|reflexivity].
  intros [H|[H|H]]; discriminate H.
Qed.

(** ** The parallel node *)

(** C2 fails on the code: the handler reads [state.delay], which only a
    [State] has, and [state["parallel_id"]], which only a dict has, so it
    raises on whatever it is given and never emits a message.  On the dict of
    a [Send] it raises at [state.delay], before suspending; on a [State] it
    suspends and raises at the subscript. *)
Theorem parallel_node_raises :
  (forall d, parallel_node (ObjDict d) = ([], inl (AttributeError "delay")))
  /\ (forall s, parallel_node (ObjState s) =
                ([Sleep (delay s)], inl TypeError_not_subscriptable))
  /\ (forall o tr u, parallel_node o <> (tr, inr u)).
Proof.
  split; [reflexivity|]. split; [reflexivity|].
  intros [s|d] tr u.
  - rewrite parallel_node_state. discriminate.
  - rewrite parallel_node_dict. discriminate.
Qed.

(** ** The router *)

Lemma next_frontier_parallel (merged : State) (us : list exec_unit) :
  Forall (fun u => u_node u = Parallel) us ->
  next_frontier graph merged us = inr [].
Proof.
  induction 1 as [|u us Hu _ IH]; simpl; [reflexivity|].
  rewrite Hu. exact IH.
Qed.

Lemma frontier_of_parallel (s : State) :
  mode s = PyEnum PARALLEL_NODES ->
  frontier_of s = map parallel_unit (range 1 (expand s + 1)).
Proof.
  intros Hm. unfold frontier_of, should_continue. rewrite Hm.
  simpl. now rewrite map_map.
Qed.

(** C6: in parallel mode the router returns one [Send] to the parallel node
    per [k] in [1..expand], with the overlay [{"parallel_id": k}], [expand]
    of them and no two alike; the entry unit's routing puts exactly these
    units in the next frontier; the parallel node has no router, its only
    edge leads to the end, so a frontier of parallel units routes to nothing. *)
Theorem should_continue_fan_out (c d ds n : Z) (msgs : list Message) :
  let s := {| counter := c; delay := d; data_size := ds; expand := n;
              mode := PyEnum PARALLEL_NODES; messages := msgs |} in
  should_continue s =
    Some (BranchSet (map (fun k => {| send_node := Parallel;
                                      send_arg := [("parallel_id", k)] |})
                         (range 1 (n + 1))))
  /\ frontier_of s = map parallel_unit (range 1 (n + 1))
  /\ List.length (range 1 (n + 1)) = Z.to_nat n
  /\ NoDup (range 1 (n + 1))
  /\ (forall k, In k (range 1 (n + 1)) <-> 1 <= k <= n)
  /\ (forall lat step raw,
        resolve_mode raw = inr PARALLEL_NODES ->
        superstep graph lat step
          {| counter := c; delay := d; data_size := ds; expand := n;
             mode := raw; messages := msgs |} [entry_unit] =
        inr ({| counter := 0; delay := d; data_size := ds; expand := n;
                mode := PyEnum PARALLEL_NODES;
                messages := (msgs ++ [entry_message])%list |},
             map parallel_unit (range 1 (n + 1))))
  /\ g_edge graph Parallel = EdgeToEnd
  /\ (forall merged us,
        Forall (fun u => u_node u = Parallel) us ->
        next_frontier graph merged us = inr []).
Proof.
  intros s.
  split; [reflexivity|].
  split; [now apply frontier_of_parallel|].
  split; [rewrite range_length; f_equal; lia|].
  split; [apply range_NoDup|].
  split; [intros k; rewrite range_In; lia|].
  split.
  - intros lat step raw Hraw.
    rewrite (superstep_entry lat step
               {| counter := c; delay := d; data_size := ds; expand := n;
                  mode := raw; messages := msgs |} PARALLEL_NODES Hraw).
    unfold after_entry. simpl. f_equal. f_equal.
    now apply frontier_of_parallel.
  - split; [reflexivity|]. apply next_frontier_parallel.
Qed.

Lemma should_continue_fan_out_witness :
  resolve_mode (PyStr "parallel") = inr PARALLEL_NODES
  /\ superstep graph lat_reversed 0
       {| counter := 0; delay := 0; data_size := 5; expand := 3;
          mode := PyStr "parallel"; messages := [] |} [entry_unit] =
     inr ({| counter := 0; delay := 0; data_size := 5; expand := 3;
             mode := PyEnum PARALLEL_NODES;
             messages := [entry_message] |},
          [parallel_unit 1; parallel_unit 2; parallel_unit 3]).
Proof.
  split; [reflexivity|].
  exact (proj1 (proj2 (proj2 (proj2 (proj2 (proj2
           (should_continue_fan_out 0 0 5 3 [])))))) lat_reversed O
           (PyStr "parallel") eq_refl).
Defined.

(** ** Sequential runs *)

Lemma frontier_of_sequential (s : State) :
  mode s = PyEnum SEQUENTIAL_NODES ->
  frontier_of s =
  if counter s <? expand s then [sequential_unit] else [].
Proof.
  intros Hm. unfold frontier_of, should_continue. rewrite Hm.
  destruct (counter s <? expand s); reflexivity.
Qed.

(** From a state in sequential mode that is [k] steps short of [expand], the
    chain runs [k] more super-steps and stops. *)
Lemma sequential_chain (lat : nat -> nat -> nat) (k : nat) :
  forall (fuel step : nat) (s : State),
    mode s = PyEnum SEQUENTIAL_NODES ->
    expand s = counter s + Z.of_nat k ->
    supersteps graph lat (k + fuel) step s (frontier_of s) =
    Finished
      {| counter := expand s; delay := delay s; data_size := data_size s;
         expand := expand s; mode := mode s;
         messages :=
           (messages s
            ++ map (sequential_message (data_size s))
                 (range (counter s + 1) (expand s + 1)))%list |}.
Proof.
  induction k as [|k IH]; intros fuel step s Hm He.
  - rewrite (frontier_of_sequential s Hm).
    replace (counter s <? expand s) with false
      by (symmetry; apply Z.ltb_ge; lia).
    rewrite supersteps_done. rewrite range_nil by lia.
    destruct s as [c d ds n m msgs]. simpl in *.
    rewrite app_nil_r. f_equal. f_equal. lia.
  - rewrite (frontier_of_sequential s Hm).
    replace (counter s <? expand s) with true
      by (symmetry; apply Z.ltb_lt; lia).
    change (S k + fuel)%nat with (S (k + fuel)).
    rewrite supersteps_step.
    rewrite (superstep_sequential lat step s SEQUENTIAL_NODES Hm).
    rewrite (IH fuel (S step) (after_sequential s)); [|exact Hm|simpl; lia].
    simpl. f_equal. f_equal.
    rewrite (range_cons (counter s + 1) (expand s + 1)) by lia.
    simpl. now rewrite <- app_assoc.
Qed.

Lemma sequential_run_final (lat : nat -> nat -> nat) (n fuel : nat)
    (d ds : Z) :
  run graph lat (S n + fuel)
    (run_input (PyStr "sequential") d ds (Z.of_nat n)) =
  Finished
    {| counter := Z.of_nat n; delay := d; data_size := ds;
       expand := Z.of_nat n; mode := PyEnum SEQUENTIAL_NODES;
       messages :=
         entry_message
         :: map (sequential_message ds) (range 1 (Z.of_nat n + 1)) |}.
Proof.
  unfold run.
  change (g_start graph) with Entry. fold entry_unit.
  change (S n + fuel)%nat with (S (n + fuel)).
  rewrite supersteps_step.
  rewrite (superstep_entry lat 0 _ SEQUENTIAL_NODES) by reflexivity.
  rewrite sequential_chain; [reflexivity|reflexivity|simpl; lia].
Qed.

(** C3: a run in mode ["sequential"] with [expand = n] finishes, within
    [n + 1] super-steps, with exactly [n + 1] messages, [counter = n], and
    the message ids [0, 1, ..., n] in that order. *)
Theorem sequential_run (lat : nat -> nat -> nat) (n fuel : nat) (d ds : Z) :
  exists s : State,
    run graph lat (S n + fuel)
      (run_input (PyStr "sequential") d ds (Z.of_nat n)) = Finished s
    /\ List.length (messages s) = S n
    /\ counter s = Z.of_nat n
    /\ map id (messages s) = range 0 (Z.of_nat n + 1).
Proof.
  eexists. split; [apply sequential_run_final|]. simpl.
  split; [rewrite length_map, range_length; lia|].
  split; [reflexivity|].
  rewrite (range_cons 0) by lia. f_equal.
  rewrite map_map. simpl. apply map_id.
Qed.

(** The scenario of the specification: three steps with a payload of five. *)
Example sequential_scenario :
  run graph lat_reversed 4 (run_input (PyStr "sequential") 0 5 3) =
  Finished
    {| counter := 3; delay := 0; data_size := 5; expand := 3;
       mode := PyEnum SEQUENTIAL_NODES;
       messages :=
         [ {| id := 0; content := "Hello from entry node!" |};
           {| id := 1; content := "Hello from sequential node 1! Data: aaaaa" |};
           {| id := 2; content := "Hello from sequential node 2! Data: aaaaa" |};
           {| id := 3; content := "Hello from sequential node 3! Data: aaaaa" |} ] |}.
Proof. reflexivity. Qed.

(** ** The boundary [expand = 0] *)

(** C7: with [expand = 0] a sequential run is terminal right after the entry
    node, one super-step, with the one entry message; a parallel run
    dispatches no branch unit and finishes, without conflict, with the one
    entry message. *)
Theorem expand_zero (lat : nat -> nat -> nat) (fuel : nat) (d ds : Z) :
  run graph lat (S fuel) (run_input (PyStr "sequential") d ds 0) =
    Finished {| counter := 0; delay := d; data_size := ds; expand := 0;
                mode := PyEnum SEQUENTIAL_NODES;
                messages := [entry_message] |}
  /\ superstep graph lat 0 (State_init (run_input (PyStr "sequential") d ds 0))
       [entry_unit] =
     inr ({| counter := 0; delay := d; data_size := ds; expand := 0;
             mode := PyEnum SEQUENTIAL_NODES;
             messages := [entry_message] |}, [])
  /\ run graph lat (S fuel) (run_input (PyStr "parallel") d ds 0) =
     Finished {| counter := 0; delay := d; data_size := ds; expand := 0;
                 mode := PyEnum PARALLEL_NODES;
                 messages := [entry_message] |}
  /\ superstep graph lat 0 (State_init (run_input (PyStr "parallel") d ds 0))
       [entry_unit] =
     inr ({| counter := 0; delay := d; data_size := ds; expand := 0;
             mode := PyEnum PARALLEL_NODES;
             messages := [entry_message] |}, []).
Proof.
  assert (Hs : superstep graph lat 0
                 (State_init (run_input (PyStr "sequential") d ds 0))
                 [entry_unit] =
               inr ({| counter := 0; delay := d; data_size := ds; expand := 0;
                       mode := PyEnum SEQUENTIAL_NODES;
                       messages := [entry_message] |}, []))
    by (now rewrite (superstep_entry lat 0 _ SEQUENTIAL_NODES)).
  assert (Hp : superstep graph lat 0
                 (State_init (run_input (PyStr "parallel") d ds 0))
                 [entry_unit] =
               inr ({| counter := 0; delay := d; data_size := ds; expand := 0;
                       mode := PyEnum PARALLEL_NODES;
                       messages := [entry_message] |}, []))
    by (now rewrite (superstep_entry lat 0 _ PARALLEL_NODES)).
  unfold run. change (g_start graph) with Entry. fold entry_unit.
  rewrite !supersteps_step, Hs, Hp, !supersteps_done.
  repeat split.
Qed.

(** ** Parallel runs *)

(** C1 fails on the code: with one branch or more the run does not finish;
    every branch unit raises in [parallel_node] and the run fails with the
    failure of the unit of branch 1, whatever the completion latencies. *)
Theorem parallel_run_fails (lat : nat -> nat -> nat) (n fuel : nat)
    (d ds : Z) :
  run graph lat (S (S fuel))
    (run_input (PyStr "parallel") d ds (Z.of_nat (S n))) =
  Failed (NodeExecutionError Parallel (Some [("parallel_id", 1)])
            (AttributeError "delay")).
Proof.
  unfold run. change (g_start graph) with Entry. fold entry_unit.
  rewrite supersteps_step.
  rewrite (superstep_entry lat 0 _ PARALLEL_NODES) by reflexivity.
  rewrite frontier_of_parallel by reflexivity.
  cbn [after_entry expand State_init run_input in_expand or_default].
  rewrite (range_cons 1) by lia.
  cbn [map]. rewrite supersteps_step.
  now rewrite superstep_parallel_fails.
Qed.

(** ** Determinism *)

(** The latencies do change the order in which the units complete. *)
Example completion_order_varies :
  map r_index
    (completed graph lat_same 1 (State_init no_input)
       [parallel_unit 1; parallel_unit 2; parallel_unit 3]) = [0; 1; 2]%nat
  /\ map r_index
       (completed graph lat_reversed 1 (State_init no_input)
          [parallel_unit 1; parallel_unit 2; parallel_unit 3]) = [2; 1; 0]%nat.
Proof. split; reflexivity. Qed.

(** Two runs of the engine on the same inputs that differ only in the
    completion latencies of their units have the same outcome. *)
Lemma run_deterministic (lat1 lat2 : nat -> nat -> nat) (fuel : nat)
    (input : StateInput) :
  run graph lat1 fuel input = run graph lat2 fuel input
  /\ log (run graph lat1 fuel input) = log (run graph lat2 fuel input).
Proof.
  assert (H : run graph lat1 fuel input = run graph lat2 fuel input)
    by apply supersteps_latency.
  split; [exact H|now rewrite H].
Qed.

(** ** What a super-step preserves *)











(** ** The state along a run *)












(** The history of the scenario of the specification: the entry step and
    three sequential steps, with the counter going 0, 1, 2, 3. *)
Example history_scenario :
  map (fun p => (map u_node (fst p), counter (snd p)))
    (history graph lat_reversed 4 0
       (State_init (run_input (PyStr "sequential") 0 5 3)) [entry_unit]) =
  [ ([Entry], 0); ([Sequential], 1); ([Sequential], 2); ([Sequential], 3) ].
Proof. reflexivity. Qed.

(** ** Parallel runs and determinism *)


(** * Further properties of the module *)

(** ** The enumeration *)

(** X1: [BenchmarkMode(v)] returns the member [m] exactly when [v] is [m]
    itself or the value of [m]; so a member's value converts back to the
    member, and no other string, integer, boolean or [None] converts. *)
Theorem BenchmarkMode_call_iff (v : pyval) (m : BenchmarkMode) :
  BenchmarkMode_call v = inr m
  <-> v = PyEnum m \/ v = PyStr (BenchmarkMode_value m).
Proof.
  split.
  - destruct v as [|b|z|s|m']; simpl; try discriminate.
    + destruct (String.eqb_spec s "single") as [E|_].
      { intros H. inversion H. subst. now right. }
      destruct (String.eqb_spec s "sequential") as [E|_].
      { intros H. inversion H. subst. now right. }
      destruct (String.eqb_spec s "parallel") as [E|_].
      { intros H. inversion H. subst. now right. }
      discriminate.
    + intros H. inversion H. now left.
  - intros [E|E]; subst v; [reflexivity|]. now destruct m.
Qed.

(** ** The entry node, again *)

(** X2: the entry node is idempotent: run on a state that carries the mode
    it resolved, it succeeds and returns the same update. *)
Theorem entry_node_idempotent (s : State) (u : Update) :
  snd (entry_node (ObjState s)) = inr u ->
  exists m,
    upd_mode u = Some m
    /\ forall s', mode s' = PyEnum m -> entry_node (ObjState s') = ([], inr u).
Proof.
  rewrite entry_node_eq. cbn [snd].
  destruct (resolve_mode (mode s)) as [e|m]; [discriminate|].
  intros H. inversion H. subst u. exists m. split; [reflexivity|].
  intros s' Hs'. rewrite entry_node_eq, Hs'. reflexivity.
Qed.

Lemma entry_node_idempotent_witness :
  snd (entry_node (ObjState (State_init (run_input (PyStr "parallel") 0 5 3)))) =
  inr {| upd_counter := Some 0; upd_mode := Some PARALLEL_NODES;
         upd_messages := Some [entry_message] |}
  /\ exists m,
       Some PARALLEL_NODES = Some m
       /\ forall s', mode s' = PyEnum m ->
                     entry_node (ObjState s') =
                     ([], inr {| upd_counter := Some 0;
                                 upd_mode := Some PARALLEL_NODES;
                                 upd_messages := Some [entry_message] |}).
Proof.
  split; [reflexivity|].
  exact (entry_node_idempotent
           (State_init (run_input (PyStr "parallel") 0 5 3))
           {| upd_counter := Some 0; upd_mode := Some PARALLEL_NODES;
              upd_messages := Some [entry_message] |} eq_refl).
Defined.

(** ** When a node succeeds *)

(** X3: a node of the graph succeeds exactly when it is given a [State] and
    it is the sequential node, or the entry node on an accepted mode.  On the
    dict of a [Send] every node raises, and the parallel node raises on
    everything. *)
Theorem node_succeeds_iff (n : node_id) (o : pyobj) :
  (exists tr u, g_node graph n o = (tr, inr u))
  <-> exists s, o = ObjState s
                /\ (n = Sequential \/ (n = Entry /\ accepted (mode s))).
Proof.
  split.
  - intros [tr [u H]]. destruct o as [s|d].
    + exists s. split; [reflexivity|]. destruct n.
      * right. split; [reflexivity|].
        change (entry_node (ObjState s) = (tr, inr u)) in H.
        rewrite entry_node_eq in H.
        destruct (resolve_mode_cases (mode s)) as [[Ha _]|[_ Hr]];
          [exact Ha|].
        rewrite Hr in H. inversion H.
      * now left.
      * change (parallel_node (ObjState s) = (tr, inr u)) in H.
        rewrite parallel_node_state in H. inversion H.
    + destruct n; inversion H.
  - intros [s [-> [->|[-> Ha]]]].
    + do 2 eexists. apply sequential_node_eq.
    + change (exists tr u, entry_node (ObjState s) = (tr, inr u)).
      rewrite entry_node_eq.
      destruct (resolve_mode_cases (mode s)) as [[_ [m [Hr _]]]|[Hn _]];
        [|contradiction].
      rewrite Hr. do 2 eexists. reflexivity.
Qed.

(** ** The payload, again *)

(** X4: with [data_size <= 0] the payload is the empty string, so a
    negative size is not an error and the message ends after ["Data: "]. *)
Theorem create_large_data_nonpositive (s : State) :
  data_size s <= 0 ->
  create_large_data (ObjState s) = ([], inr "")
  /\ snd (sequential_node (ObjState s)) =
     inr {| upd_counter := Some (counter s + 1);
            upd_mode := None;
            upd_messages :=
              Some [ {| id := counter s + 1;
                        content := "Hello from sequential node "
                                   ++ str (counter s + 1) ++ "! Data: " |} ] |}.
Proof.
  intros H.
  assert (E : str_mul "a" (data_size s) = "").
  { unfold str_mul. replace (Z.to_nat (data_size s)) with O by lia.
    reflexivity. }
  split.
  - unfold create_large_data. simpl. now rewrite E.
  - rewrite sequential_node_eq. unfold sequential_message. now rewrite E.
Qed.

Lemma create_large_data_nonpositive_witness :
  data_size (State_init (run_input (PyStr "sequential") 0 (-3) 2)) <= 0
  /\ create_large_data
       (ObjState (State_init (run_input (PyStr "sequential") 0 (-3) 2))) =
     ([], inr "").
Proof.
  assert (H : data_size (State_init (run_input (PyStr "sequential") 0 (-3) 2))
              <= 0) by (simpl; lia).
  split; [exact H|].
  exact (proj1 (create_large_data_nonpositive _ H)).
Defined.

(** ** The router, again *)

(** X5: the router returns no decision exactly when [mode] is not a member
    of the enumeration; a raw string such as ["sequential"], which the entry
    node has not converted, matches no case. *)
Theorem should_continue_none_iff (s : State) :
  should_continue s = None <-> forall m, mode s <> PyEnum m.
Proof.
  unfold should_continue. split.
  - intros H m Hm. rewrite Hm in H.
    destruct m; try discriminate.
    destruct (counter s <? expand s); discriminate.
  - intros H. destruct (mode s) as [|b|z|str0|m]; try reflexivity.
    exfalso. now apply (H m).
Qed.

(** X6: what a decision of the router tells about the state: it ends the
    run only in single mode or in sequential mode with [counter >= expand];
    it names a next node only in sequential mode with [counter < expand],
    and that node is the sequential node, never the entry or the parallel
    node; it fans out only in parallel mode, every [Send] to the parallel
    node with a [parallel_id] between 1 and [expand]. *)
Theorem should_continue_targets (s : State) (d : RouterDecision) :
  should_continue s = Some d ->
  match d with
  | Terminal =>
      mode s = PyEnum SINGLE_NODE
      \/ (mode s = PyEnum SEQUENTIAL_NODES /\ expand s <= counter s)
  | NextNode n =>
      n = Sequential
      /\ mode s = PyEnum SEQUENTIAL_NODES /\ counter s < expand s
  | BranchSet sends =>
      mode s = PyEnum PARALLEL_NODES
      /\ Forall (fun sd => send_node sd = Parallel
                           /\ exists k, send_arg sd = [("parallel_id", k)]
                                        /\ 1 <= k <= expand s) sends
  end.
Proof.
  unfold should_continue.
  destruct (mode s) as [|b|z|str0|m]; try discriminate.
  destruct m.
  - intros H. inversion H. now left.
  - destruct (Z.ltb_spec (counter s) (expand s)) as [Hlt|Hge];
      intros H; inversion H.
    + repeat split. exact Hlt.
    + right. now split.
  - intros H. inversion H. split; [reflexivity|].
    rewrite Forall_map, Forall_forall. intros k Hk. simpl.
    split; [reflexivity|]. exists k. split; [reflexivity|].
    apply range_In in Hk. lia.
Qed.

Lemma should_continue_targets_witness :
  should_continue
    {| counter := 1; delay := 0; data_size := 5; expand := 3;
       mode := PyEnum SEQUENTIAL_NODES; messages := [] |} =
  Some (NextNode Sequential)
  /\ Sequential = Sequential
  /\ PyEnum SEQUENTIAL_NODES = PyEnum SEQUENTIAL_NODES
  /\ 1 < 3.
Proof.
  split; [reflexivity|].
  exact (should_continue_targets
           {| counter := 1; delay := 0; data_size := 5; expand := 3;
              mode := PyEnum SEQUENTIAL_NODES; messages := [] |}
           (NextNode Sequential) eq_refl).
Defined.

Lemma nth_error_seq_lt (len start i : nat) :
  (i < len)%nat -> nth_error (seq start len) i = Some (start + i)%nat.
Proof.
  revert start i. induction len as [|len IH]; intros start i Hi; [lia|].
  destruct i as [|i]; simpl.
  - f_equal. lia.
  - rewrite IH by lia. f_equal. lia.
Qed.

(** X7: in parallel mode the [Send]s are listed in ascending branch order:
    the one at position [i], counted from 0, carries [parallel_id = i + 1]. *)
Theorem should_continue_send_order (s : State) (i : nat) :
  mode s = PyEnum PARALLEL_NODES ->
  (i < Z.to_nat (expand s))%nat ->
  exists sends,
    should_continue s = Some (BranchSet sends)
    /\ nth_error sends i =
       Some {| send_node := Parallel;
               send_arg := [("parallel_id", Z.of_nat i + 1)] |}.
Proof.
  intros Hm Hi. unfold should_continue. rewrite Hm.
  eexists. split; [reflexivity|].
  unfold range.
  apply (map_nth_error
           (fun k => {| send_node := Parallel;
                        send_arg := [("parallel_id", k)] |}))
    with (d := Z.of_nat i + 1).
  replace (Z.of_nat i + 1) with (1 + Z.of_nat (0 + i)) by lia.
  apply (map_nth_error (fun j => 1 + Z.of_nat j)).
  apply nth_error_seq_lt. lia.
Qed.

Lemma should_continue_send_order_witness :
  mode {| counter := 0; delay := 0; data_size := 5; expand := 3;
          mode := PyEnum PARALLEL_NODES; messages := [] |} =
  PyEnum PARALLEL_NODES
  /\ (2 < Z.to_nat 3)%nat
  /\ exists sends,
       should_continue
         {| counter := 0; delay := 0; data_size := 5; expand := 3;
            mode := PyEnum PARALLEL_NODES; messages := [] |} =
       Some (BranchSet sends)
       /\ nth_error sends 2 =
          Some {| send_node := Parallel; send_arg := [("parallel_id", 3)] |}.
Proof.
  split; [reflexivity|]. split; [simpl; lia|].
  apply (should_continue_send_order
           {| counter := 0; delay := 0; data_size := 5; expand := 3;
              mode := PyEnum PARALLEL_NODES; messages := [] |} 2 eq_refl).
  simpl. lia.
Defined.

(** X8: with [expand <= 0] the router has nothing to start: in parallel
    mode it returns the empty list of [Send]s, and in sequential mode, from
    a counter that is not negative, it ends the run. *)
Theorem should_continue_nonpositive_expand (s : State) :
  expand s <= 0 ->
  (mode s = PyEnum PARALLEL_NODES ->
   should_continue s = Some (BranchSet []))
  /\ (mode s = PyEnum SEQUENTIAL_NODES -> 0 <= counter s ->
      should_continue s = Some Terminal).
Proof.
  intros He. unfold should_continue. split.
  - intros Hm. rewrite Hm. now rewrite range_nil by lia.
  - intros Hm Hc. rewrite Hm.
    destruct (Z.ltb_spec (counter s) (expand s)); [lia|reflexivity].
Qed.

Lemma should_continue_nonpositive_expand_witness :
  expand {| counter := 0; delay := 0; data_size := 5; expand := -2;
            mode := PyEnum PARALLEL_NODES; messages := [] |} <= 0
  /\ should_continue
       {| counter := 0; delay := 0; data_size := 5; expand := -2;
          mode := PyEnum PARALLEL_NODES; messages := [] |} =
     Some (BranchSet []).
Proof.
  assert (H : expand {| counter := 0; delay := 0; data_size := 5;
                        expand := -2; mode := PyEnum PARALLEL_NODES;
                        messages := [] |} <= 0) by (simpl; lia).
  split; [exact H|].
  exact (proj1 (should_continue_nonpositive_expand _ H) eq_refl).
Defined.

(** ** Runs, again *)

Lemma not_accepted_resolve (v : pyval) :
  ~ accepted v -> resolve_mode v = inl (ValueError v).
Proof.
  intros Hn. destruct (resolve_mode_cases v) as [[Ha _]|[_ Hr]];
    [contradiction|exact Hr].
Qed.

Lemma single_resolve (v : pyval) :
  v = PyStr "single" \/ v = PyEnum SINGLE_NODE \/ truthy v = false ->
  resolve_mode v = inr SINGLE_NODE.
Proof.
  intros [E|[E|E]]; [subst v; reflexivity|subst v; reflexivity|].
  unfold resolve_mode. now rewrite E.
Qed.

(** X9: a run whose raw mode is ["single"], the member [SINGLE_NODE] (the
    default when [mode] is omitted) or any false value finishes after the
    one super-step of the entry node, whatever [expand], [delay] and
    [data_size] are: [counter] is 0 and the entry message is the only one
    added to the caller's log. *)
Theorem single_run (lat : nat -> nat -> nat) (fuel : nat)
    (input : StateInput) :
  mode (State_init input) = PyStr "single"
  \/ mode (State_init input) = PyEnum SINGLE_NODE
  \/ truthy (mode (State_init input)) = false ->
  run graph lat (S fuel) input =
  Finished {| counter := 0;
              delay := delay (State_init input);
              data_size := data_size (State_init input);
              expand := expand (State_init input);
              mode := PyEnum SINGLE_NODE;
              messages :=
                (messages (State_init input) ++ [entry_message])%list |}.
Proof.
  intros H. apply single_resolve in H.
  unfold run. change (g_start graph) with Entry. fold entry_unit.
  rewrite supersteps_step.
  rewrite (superstep_entry lat 0 _ SINGLE_NODE H).
  change (frontier_of (after_entry (State_init input) SINGLE_NODE))
    with (@nil exec_unit).
  now rewrite supersteps_done.
Qed.

Lemma single_run_witness :
  (mode (State_init no_input) = PyStr "single"
   \/ mode (State_init no_input) = PyEnum SINGLE_NODE
   \/ truthy (mode (State_init no_input)) = false)
  /\ run graph lat_reversed 1 no_input =
     Finished {| counter := 0; delay := 0; data_size := 1000; expand := 50;
                 mode := PyEnum SINGLE_NODE; messages := [entry_message] |}.
Proof.
  assert (H : mode (State_init no_input) = PyStr "single"
              \/ mode (State_init no_input) = PyEnum SINGLE_NODE
              \/ truthy (mode (State_init no_input)) = false)
    by (right; left; reflexivity).
  split; [exact H|].
  exact (single_run lat_reversed 0 no_input H).
Defined.

(** X10: a run whose raw mode the entry node does not accept fails in its
    first super-step with the [ValueError] of the enumeration, attributed to
    the entry node; no state is returned and no other node runs. *)
Theorem invalid_mode_run_fails (lat : nat -> nat -> nat) (fuel : nat)
    (input : StateInput) :
  ~ accepted (mode (State_init input)) ->
  run graph lat (S fuel) input =
  Failed (NodeExecutionError Entry None
            (ValueError (mode (State_init input)))).
Proof.
  intros H. apply not_accepted_resolve in H.
  unfold run. change (g_start graph) with Entry. fold entry_unit.
  rewrite supersteps_step.
  now rewrite (superstep_entry_fails lat 0 _ _ H).
Qed.

Lemma invalid_mode_run_fails_witness :
  ~ accepted (mode (State_init (run_input (PyStr "bogus") 0 5 3)))
  /\ run graph lat_same 4 (run_input (PyStr "bogus") 0 5 3) =
     Failed (NodeExecutionError Entry None (ValueError (PyStr "bogus"))).
Proof.
  assert (H : ~ accepted (mode (State_init (run_input (PyStr "bogus") 0 5 3)))).
  { intros [H|[[m H]|[H|[H|H]]]]; discriminate H. }
  split; [exact H|].
  exact (invalid_mode_run_fails lat_same 3 _ H).
Defined.

(** X11: a sequential run does not depend on the [counter] the caller
    supplies, and it keeps the messages the caller supplies: the entry node
    resets the counter, so the chain makes exactly [n] steps, the final
    counter is [n], and the log is the caller's messages followed by the
    entry message and the messages of steps [1..n]. *)
Theorem sequential_run_from (lat : nat -> nat -> nat) (n fuel : nat)
    (c0 : option Z) (msgs0 : option (list Message)) (d ds : Z) :
  run graph lat (S n + fuel)
    {| in_counter := c0; in_delay := Some d; in_data_size := Some ds;
       in_expand := Some (Z.of_nat n);
       in_mode := Some (PyStr "sequential"); in_messages := msgs0 |} =
  Finished
    {| counter := Z.of_nat n; delay := d; data_size := ds;
       expand := Z.of_nat n; mode := PyEnum SEQUENTIAL_NODES;
       messages :=
         (or_default msgs0 []
          ++ entry_message
             :: map (sequential_message ds) (range 1 (Z.of_nat n + 1)))%list |}.
Proof.
  unfold run. change (g_start graph) with Entry. fold entry_unit.
  change (S n + fuel)%nat with (S (n + fuel)).
  rewrite supersteps_step.
  rewrite (superstep_entry lat 0 _ SEQUENTIAL_NODES) by reflexivity.
  rewrite sequential_chain; [|reflexivity|simpl; lia].
  simpl. now rewrite <- app_assoc.
Qed.

(** While the chain has steps left, a bound on the super-steps that is
    smaller than their number stops the run before it finishes. *)
Lemma sequential_chain_short (lat : nat -> nat -> nat) (k : nat) :
  forall (fuel step : nat) (s : State),
    mode s = PyEnum SEQUENTIAL_NODES ->
    expand s = counter s + Z.of_nat k ->
    (fuel < k)%nat ->
    supersteps graph lat fuel step s (frontier_of s) = OutOfFuel.
Proof.
  induction k as [|k IH]; intros fuel step s Hm He Hf; [lia|].
  rewrite (frontier_of_sequential s Hm).
  replace (counter s <? expand s) with true
    by (symmetry; apply Z.ltb_lt; lia).
  destruct fuel as [|fuel]; [reflexivity|].
  rewrite supersteps_step.
  rewrite (superstep_sequential lat step s SEQUENTIAL_NODES Hm).
  apply IH; [exact Hm|simpl; lia|lia].
Qed.

(** X12: a sequential run with [expand = n] takes [n + 1] super-steps and
    no fewer: bounded to [n] super-steps or less it has not finished. *)
Theorem sequential_run_needs_steps (lat : nat -> nat -> nat) (n fuel : nat)
    (d ds : Z) :
  (fuel <= n)%nat ->
  run graph lat fuel (run_input (PyStr "sequential") d ds (Z.of_nat n)) =
  OutOfFuel.
Proof.
  intros Hf. unfold run. change (g_start graph) with Entry. fold entry_unit.
  destruct fuel as [|fuel]; [reflexivity|].
  rewrite supersteps_step.
  rewrite (superstep_entry lat 0 _ SEQUENTIAL_NODES) by reflexivity.
  apply (sequential_chain_short lat n); [reflexivity|simpl; lia|lia].
Qed.

Lemma sequential_run_needs_steps_witness :
  (3 <= 3)%nat
  /\ run graph lat_same 3 (run_input (PyStr "sequential") 0 5 3) = OutOfFuel.
Proof.
  assert (H : (3 <= 3)%nat) by lia.
  split; [exact H|].
  exact (sequential_run_needs_steps lat_same 3 3 0 5 H).
Defined.

(** X13: with [expand <= 0] a sequential run and a parallel run both
    end right after the entry node with the one entry message; the final
    counter is 0, not [expand]. *)
Theorem nonpositive_expand_run (lat : nat -> nat -> nat) (fuel : nat)
    (d ds n : Z) :
  n <= 0 ->
  run graph lat (S fuel) (run_input (PyStr "sequential") d ds n) =
    Finished {| counter := 0; delay := d; data_size := ds; expand := n;
                mode := PyEnum SEQUENTIAL_NODES;
                messages := [entry_message] |}
  /\ run graph lat (S fuel) (run_input (PyStr "parallel") d ds n) =
     Finished {| counter := 0; delay := d; data_size := ds; expand := n;
                 mode := PyEnum PARALLEL_NODES;
                 messages := [entry_message] |}.
Proof.
  intros Hn. unfold run. change (g_start graph) with Entry. fold entry_unit.
  rewrite !supersteps_step.
  rewrite (superstep_entry lat 0 _ SEQUENTIAL_NODES) by reflexivity.
  rewrite (superstep_entry lat 0 _ PARALLEL_NODES) by reflexivity.
  rewrite frontier_of_sequential by reflexivity.
  rewrite frontier_of_parallel by reflexivity.
  cbn [after_entry counter expand State_init run_input in_expand or_default].
  replace (0 <? n) with false by (symmetry; apply Z.ltb_ge; lia).
  rewrite range_nil by lia. cbn [map].
  rewrite !supersteps_done. split; reflexivity.
Qed.

Lemma nonpositive_expand_run_witness :
  -4 <= 0
  /\ run graph lat_same 1 (run_input (PyStr "sequential") 0 5 (-4)) =
     Finished {| counter := 0; delay := 0; data_size := 5; expand := -4;
                 mode := PyEnum SEQUENTIAL_NODES;
                 messages := [entry_message] |}.
Proof.
  assert (H : -4 <= 0) by lia.
  split; [exact H|].
  exact (proj1 (nonpositive_expand_run lat_same 0 0 5 (-4) H)).
Defined.
